(** * Traffic Tracker API: a shallow embedding of [main.py]

    The three request handlers of [main.py] ([test_database],
    [track_event], [get_stats]) over the document store they share.

    Conventions.
    - A Python [str] is the [string] of its UTF-8 encoding: a character
      is a leading byte with the continuation bytes that follow it, and
      [str(e)[:80]] is the first 80 characters.
    - A Python [dict] with string keys is a [gmap string _].
    - An exception is identified with its message [str(e)]; a computation
      that may raise returns a [res].  Code that mutates state and may
      raise runs in the monad [M S], whose state survives a raise, as the
      mutations of a Python object do. *)

From stdpp Require Import base option list gmap strings fin_maps pretty.

Open Scope string_scope.
Open Scope list_scope.
Open Scope Z_scope.

(** ** Outcomes and the state-and-exception monad *)

Inductive res (A : Type) : Type :=
| Ok (a : A)
| Raise (msg : string).
Arguments Ok {A} a.
Arguments Raise {A} msg.

Definition M (S A : Type) : Type := S → res A * S.

Module Py.

Definition ret {S A} (a : A) : M S A := λ s, (Ok a, s).

Definition bind {S A B} (c : M S A) (k : A → M S B) : M S B :=
  λ s, match c s with
       | (Ok a, s') => k a s'
       | (Raise e, s') => (Raise e, s')
       end.

(** An operation of a collaborator whose outcome is already known. *)
Definition lift {S A} (r : res A) : M S A := λ s, (r, s).

Definition modify {S} (f : S → S) : M S unit := λ s, (Ok (), f s).

(** [try: body except Exception as e: handler e].  The handler starts
    from the state the body left behind. *)
Definition try_except {S A} (body : M S A) (handler : string → M S A) : M S A :=
  λ s, match body s with
       | (Ok a, s') => (Ok a, s')
       | (Raise e, s') => handler e s'
       end.

End Py.

Declare Scope py_scope.
Delimit Scope py_scope with py.
Notation "x <- c ;; k" := (Py.bind c (λ x, k))
  (at level 100, c at next level, right associativity) : py_scope.
Notation "c ;; k" := (Py.bind c (λ _, k))
  (at level 100, right associativity) : py_scope.

(** ** Python values and strings *)

(** A continuation byte of UTF-8, [10xxxxxx]: it belongs to the character
    begun before it. *)
Definition is_continuation (c : Ascii.ascii) : bool :=
  match c with
  | Ascii.Ascii _ _ _ _ _ _ false true => true
  | _ => false
  end.

(** [len(s)], the number of characters *)
Fixpoint str_len (s : string) : nat :=
  match s with
  | EmptyString => O
  | String c s' => if is_continuation c then str_len s' else S (str_len s')
  end.

(** [s[:n]], the first [n] characters *)
Fixpoint str_take (n : nat) (s : string) : string :=
  match s with
  | EmptyString => EmptyString
  | String c s' =>
      if is_continuation c then String c (str_take n s')
      else match n with
           | O => EmptyString
           | S n' => String c (str_take n' s')
           end
  end.

(** Truth value of an optional string: [None] and the empty string are
    false. *)
Definition str_truthy (o : option string) : bool :=
  match o with
  | Some s => negb (String.eqb s "")
  | None => false
  end.

(** The values a stored document holds.  An [ObjectId] is numbered by the
    store; a timestamp carries its textual rendering. *)
Inductive value : Type :=
| VNone
| VBool (b : bool)
| VInt (z : Z)
| VStr (s : string)
| VOid (n : N)
| VDate (text : string).

Global Instance value_eq_dec : EqDecision value.
Proof. solve_decision. Defined.

(** [str(v)] *)
Definition py_str (v : value) : string :=
  match v with
  | VNone => "None"
  | VBool true => "True"
  | VBool false => "False"
  | VInt z => pretty z
  | VStr s => s
  | VOid n => pretty n
  | VDate text => text
  end.

(** [bool(v)] *)
Definition truthy (v : value) : bool :=
  match v with
  | VNone => false
  | VBool b => b
  | VInt z => negb (z =? 0)
  | VStr s => negb (String.eqb s "")
  | VOid _ => true
  | VDate _ => true
  end.

Definition is_str (v : value) : bool :=
  match v with VStr _ => true | _ => false end.

(** [x or d] for an optional string [x] *)
Definition str_or (o : option string) (d : string) : string :=
  match o with
  | Some s => if String.eqb s "" then d else s
  | None => d
  end.

Definition of_opt (o : option string) : value :=
  match o with Some s => VStr s | None => VNone end.

Abbreviation doc := (gmap string value).

(** [d[k] = v] on the dict the computation holds *)
Definition setitem {V} (k : string) (v : V) : M (gmap string V) unit :=
  Py.modify (λ d : gmap string V, <[k := v]> d).

(** [d.get(k)] *)
Definition dict_get (d : doc) (k : string) : value := default VNone (d !! k).

(** [d[k]], a [KeyError] when [k] is missing *)
Definition dict_item (d : doc) (k : string) : res value :=
  match d !! k with
  | Some v => Ok v
  | None => Raise ("'" +:+ k +:+ "'")
  end.

Definition get_ (k : string) : M doc value := λ d, (Ok (dict_get d k), d).

Definition item (k : string) : M doc value := λ d, (dict_item d k, d).

(** ** The process environment: store handle, variables, event schema *)

(** Modelled from the spec: [schemas.TrafficEvent], which [main.py] imports
    from a module whose source is not at hand.  Section 3 of the spec
    gives its five fields, supplied by the caller or derived from the
    request; constructing one validates it (see [schema_rejects] below)
    and keeps the fields as given. *)
Module TrafficEvent.
Record t : Type := Build {
  path : string;
  source : option string;
  event : string;
  user_agent : option string;
  ip : option string;
}.
End TrafficEvent.

(** The driver's database object behind the name [db]: what
    [getattr(db, 'name', None)] yields, the collections with their
    documents in store order, the next identifier the store hands out, the
    timestamp the store layer stamps (if it stamps any), and the failure,
    if any, with which listing, reading or writing currently ends. *)
Record database : Type := {
  name_attr : res (option string);
  collections : gmap string (list doc);
  next_oid : N;
  clock : option string;
  fault_list : option string;
  fault_find : option string;
  fault_insert : option string;
}.

(** [db.list_collection_names()] *)
Definition list_collection_names (d : database) : res (list string) :=
  match fault_list d with
  | Some e => Raise e
  | None => Ok (map_to_list (collections d)).*1
  end.

Record world : Type := {
  db : option database;                  (* [database.db], [None] when not set up *)
  environ : gmap string string;          (* [os.environ] *)
  schema_rejects : TrafficEvent.t → option string;
    (* the message of the validation error [TrafficEvent(...)] raises, if any *)
}.

(** [os.getenv(k)] *)
Definition os_getenv (w : world) (k : string) : option string := environ w !! k.

(** ** GET / *)

Definition read_root : gmap string string :=
  {[ "message" := "Traffic Tracker API is running" ]}.

(** ** GET /test *)

(** What a field of the diagnostics report holds. *)
Inductive rvalue : Type :=
| RNone
| RStr (s : string)
| RList (l : list string).

Global Instance rvalue_eq_dec : EqDecision rvalue.
Proof. solve_decision. Defined.

Abbreviation report := (gmap string rvalue).


Definition test_database_listing (d : database) : M report unit :=
  Py.try_except
    (names <- Py.lift (list_collection_names d) ;;
     setitem "collections" (RList (take 10 names)) ;;
     setitem "database" (RStr "✅ Connected & Working"))%py
    (λ e, setitem "database" (RStr ("⚠️ Connected but Error: " +:+ str_take 80 e))).

Definition test_database_probe (w : world) : M report unit :=
  match db w with
  | Some d =>
      (setitem "database" (RStr "✅ Available") ;;
       setitem "database_url"
         (RStr (if str_truthy (os_getenv w "DATABASE_URL") then "✅ Set" else "❌ Not Set")) ;;
       name <- Py.lift (name_attr d) ;;
       setitem "database_name" (RStr (str_or name "Unknown")) ;;
       setitem "connection_status" (RStr "Connected") ;;
       test_database_listing d)%py
  | None => setitem "database" (RStr "⚠️ Available but not initialized")
  end.

Definition test_database_initial : report :=
  {[ "backend" := RStr "✅ Running";
     "database" := RStr "❌ Not Available";
     "database_url" := RNone;
     "database_name" := RNone;
     "connection_status" := RStr "Not Connected";
     "collections" := RList [] ]}.

Definition test_database (w : world) : res report :=
  let response := test_database_initial in
  let '(r, response) :=
    Py.try_except (test_database_probe w)
      (λ e, setitem "database" (RStr ("❌ Error: " +:+ str_take 80 e)))
      response in
  match r with
  | Ok _ => Ok response
  | Raise e => Raise e
  end.

(** ** The document store adapter *)

Definition event_collection : string := "trafficevent".

(** The documents of collection [c]; a collection nobody wrote to is
    empty. *)
Definition docs_of (d : database) (c : string) : list doc :=
  default [] (collections d !! c).

Definition stored_docs (w : world) (c : string) : list doc :=
  match db w with
  | Some d => docs_of d c
  | None => []
  end.

(** The fields of an event as a document. *)
Definition event_doc (evt : TrafficEvent.t) : doc :=
  {[ "path" := VStr (TrafficEvent.path evt);
     "source" := of_opt (TrafficEvent.source evt);
     "event" := VStr (TrafficEvent.event evt);
     "user_agent" := of_opt (TrafficEvent.user_agent evt);
     "ip" := of_opt (TrafficEvent.ip evt) ]}.

(** The store layer's timestamps, where it sets them. *)
Definition stamp (d : database) (x : doc) : doc :=
  match clock d with
  | Some t => <["updated_at" := VDate t]> (<["created_at" := VDate t]> x)
  | None => x
  end.

(** The document an insert of [evt] adds to [d]. *)
Definition new_doc (d : database) (evt : TrafficEvent.t) : doc :=
  <["_id" := VOid (next_oid d)]> (stamp d (event_doc evt)).

Definition insert_one (d : database) (c : string) (x : doc) : database :=
  {| name_attr := name_attr d;
     collections := <[c := docs_of d c ++ [x]]> (collections d);
     next_oid := N.succ (next_oid d);
     clock := clock d;
     fault_list := fault_list d;
     fault_find := fault_find d;
     fault_insert := fault_insert d |}.

Definition with_db (w : world) (d : database) : world :=
  {| db := Some d; environ := environ w; schema_rejects := schema_rejects w |}.

(** The message of the failure a call on a missing store handle ends
    with; the spec does not fix its wording, and no statement below
    depends on it. *)
Definition not_available : string := "Database not available".

(** Modelled from the spec: [database.create_document], which [main.py]
    imports from a module whose source is not at hand.  Section 4.4:
    [insert(collectionName, document) -> identifier]; section 4.1: one new
    document, the newly assigned identifier returned as a string, a failed
    insert persists nothing. *)
Definition create_document (collection_name : string) (data : TrafficEvent.t)
  : M world string :=
  λ w, match db w with
       | None => (Raise not_available, w)
       | Some d =>
           match fault_insert d with
           | Some e => (Raise e, w)
           | None =>
               (Ok (py_str (VOid (next_oid d))),
                with_db w (insert_one d collection_name (new_doc d data)))
           end
       end.

(** A document passes an equality filter when it holds every field of the
    filter with the filter's value. *)
Definition matches (filt : doc) (x : doc) : bool :=
  forallb (λ kv : string * value, bool_decide (x !! kv.1 = Some kv.2)) (map_to_list filt).

(** Modelled from the spec: [database.get_documents], which [main.py]
    imports from a module whose source is not at hand.  Section 4.4:
    [find(collectionName, filter, limit) -> sequence of documents];
    section 4.2: an equality filter, at most [limit] records, in the
    store's order. *)
Definition get_documents (collection_name : string) (filter_dict : doc) (limit : Z)
  : M world (list doc) :=
  λ w, match db w with
       | None => (Raise not_available, w)
       | Some d =>
           match fault_find d with
           | Some e => (Raise e, w)
           | None =>
               (Ok (take (Z.to_nat limit) (filter (λ x, matches filter_dict x = true)
                                                   (docs_of d collection_name))), w)
           end
       end.

(** ** The HTTP side: requests, bodies, results *)

Record Address : Type := { host : string; port : Z }.

(** A request as the application receives it: the header list of the
    ASGI scope (names in lower case, in arrival order) and the peer
    address, if the transport has one. *)
Record Request : Type := {
  headers : list (string * string);
  client : option Address;
}.

(** [request.headers.get(key, default)]: the first header of that name. *)
Fixpoint headers_get (h : list (string * string)) (key : string)
    (default : option string) : option string :=
  match h with
  | [] => default
  | (k, v) :: h' => if String.eqb k key then Some v else headers_get h' key default
  end.

Module TrackEventIn.
Record t : Type := Build {
  path : string;
  event : string;
  source : option string;
}.
End TrackEventIn.

Module TrackEventOut.
Record t : Type := Build { id : string }.
End TrackEventOut.

(** A value of a JSON request body.  The three fields of [TrackEventIn]
    are strings, so of a value that is neither null nor a string only the
    kind matters. *)
Inductive jval : Type :=
| JNull
| JStr (s : string)
| JBool (b : bool)
| JInt (z : Z)
| JOther.            (* a number with a fraction, a list or an object *)

(** The outcome of checking a body field against its declaration, [None]
    for a field in error: [path: str] is required, [event: str = "view"]
    has a default, [source: Optional[str] = None] also admits [null].
    A value that is not a string is an error in all three. *)
Definition required_str (o : option jval) : option string :=
  match o with
  | Some (JStr s) => Some s
  | _ => None
  end.

Definition defaulted_str (o : option jval) (d : string) : option string :=
  match o with
  | Some (JStr s) => Some s
  | Some _ => None
  | None => Some d
  end.

Definition optional_str (o : option jval) : option (option string) :=
  match o with
  | Some (JStr s) => Some (Some s)
  | Some JNull | None => Some None
  | Some _ => None
  end.

Definition field_error {A} (name : string) (o : option A) : list string :=
  match o with
  | Some _ => []
  | None => [name]
  end.

(** Validation of a request body against [TrackEventIn]: the model, or the
    names of the fields in error, in the order of their declaration. *)
Definition TrackEventIn_validate (body : gmap string jval) : list string + TrackEventIn.t :=
  let path := required_str (body !! "path") in
  let event := defaulted_str (body !! "event") "view" in
  let source := optional_str (body !! "source") in
  match path, event, source with
  | Some p, Some e, Some s => inr (TrackEventIn.Build p e s)
  | _, _, _ =>
      inl (field_error "path" path ++ field_error "event" event ++ field_error "source" source)
  end.

(** What a handler hands to the framework: its return value, or the
    [HTTPException] it raised. *)
Inductive http (A : Type) : Type :=
| Return (a : A)
| HTTPException (status_code : Z) (detail : string).
Arguments Return {A} a.
Arguments HTTPException {A} status_code detail.

(** [try: body except Exception as e: raise HTTPException(status_code=500,
    detail=str(e))] *)
Definition try_except_500 {S A} (body : M S A) : S → http A * S :=
  λ s, match body s with
       | (Ok a, s') => (Return a, s')
       | (Raise e, s') => (HTTPException 500 e, s')
       end.

(** ** POST /api/track *)

(** [TrafficEvent(path=..., ...)]: validation, then the record. *)
Definition TrafficEvent_new (fields : TrafficEvent.t) : M world TrafficEvent.t :=
  λ w, match schema_rejects w fields with
       | Some e => (Raise e, w)
       | None => (Ok fields, w)
       end.

Definition client_host (request : Request) : option string :=
  match client request with
  | Some c => Some (host c)
  | None => None
  end.

Definition track_event (payload : TrackEventIn.t) (request : Request)
  : world → http TrackEventOut.t * world :=
  try_except_500
    (let ip := headers_get (headers request) "x-forwarded-for" (client_host request) in
     let ua := headers_get (headers request) "user-agent" None in
     evt <- TrafficEvent_new
              (TrafficEvent.Build (TrackEventIn.path payload) (TrackEventIn.source payload)
                 (TrackEventIn.event payload) ua ip) ;;
     inserted_id <- create_document "trafficevent" evt ;;
     Py.ret (TrackEventOut.Build inserted_id))%py.

(** ** GET /api/stats *)

(** The filter of [get_stats]: [filt = {}], then the two guarded
    assignments. *)
Definition stats_filter (path event : option string) : doc :=
  let filt : doc := ∅ in
  let filt := if str_truthy path then <["path" := of_opt path]> filt else filt in
  let filt := if str_truthy event then <["event" := of_opt event]> filt else filt in
  filt.

(** The body of the loop over the documents read, on the document [d]. *)
Definition normalise : M doc unit :=
  (v <- get_ "_id" ;;
   setitem "_id" (VStr (py_str v)) ;;
   c <- get_ "created_at" ;;
   (if truthy c
    then (x <- item "created_at" ;; setitem "created_at" (VStr (py_str x)))
    else Py.ret ()) ;;
   u <- get_ "updated_at" ;;
   (if truthy u
    then (x <- item "updated_at" ;; setitem "updated_at" (VStr (py_str x)))
    else Py.ret ()))%py.

(** [for d in docs: ...; out.append(d)] *)
Fixpoint normalise_all (docs out : list doc) : res (list doc) :=
  match docs with
  | [] => Ok out
  | d :: docs' =>
      match normalise d with
      | (Ok _, d') => normalise_all docs' (out ++ [d'])
      | (Raise e, _) => Raise e
      end
  end.

Definition get_stats (path event : option string) (limit : Z)
  : world → http (list doc) * world :=
  try_except_500
    (let filt := stats_filter path event in
     docs <- get_documents "trafficevent" filt limit ;;
     out <- Py.lift (normalise_all docs []) ;;
     Py.ret out)%py.

(** ** The application: routes and responses *)

(** The query string of [GET /api/stats], once its parameters have been
    read as the handler declares them; [None] is a parameter left out.
    A [limit] that is not an integer never reaches the handler and has
    no counterpart here. *)
Record Query : Type := {
  q_path : option string;
  q_event : option string;
  q_limit : option Z;
}.

Inductive response : Type :=
| Message (m : gmap string string)               (* 200 *)
| Diagnostics (r : report)                       (* 200 *)
| Tracked (out : TrackEventOut.t)                (* 200, [{"id": ...}] *)
| Items (items : list doc)                       (* 200, [{"items": [...]}] *)
| Detail (status_code : Z) (detail : string)     (* [{"detail": ...}] *)
| Unprocessable (fields : list string)           (* 422, request validation *)
| ServerError (msg : string).                    (* 500, an exception nobody caught *)

Definition status (r : response) : Z :=
  match r with
  | Message _ | Diagnostics _ | Tracked _ | Items _ => 200
  | Detail status_code _ => status_code
  | Unprocessable _ => 422
  | ServerError _ => 500
  end.

Definition render {A} (ok : A → response) (r : http A) : response :=
  match r with
  | Return a => ok a
  | HTTPException status_code detail => Detail status_code detail
  end.

Inductive call : Type :=
| GetRoot
| GetTest
| PostTrack (body : gmap string jval) (request : Request)
| GetStats (q : Query).

(** One request against the application: the body is checked against the
    handler's signature, then the handler runs.  What the framework does
    with the value a handler returns (encoding it as JSON) is not part of
    this model. *)
Definition serve (c : call) (w : world) : response * world :=
  match c with
  | GetRoot => (Message read_root, w)
  | GetTest =>
      match test_database w with
      | Ok r => (Diagnostics r, w)
      | Raise e => (ServerError e, w)
      end
  | PostTrack body request =>
      match TrackEventIn_validate body with
      | inl fields => (Unprocessable fields, w)
      | inr payload =>
          let '(r, w') := track_event payload request w in (render Tracked r, w')
      end
  | GetStats q =>
      let '(r, w') := get_stats (q_path q) (q_event q) (default 50 (q_limit q)) w in
      (render Items r, w')
  end.

Fixpoint run (cs : list call) (w : world) : list response * world :=
  match cs with
  | [] => ([], w)
  | c :: cs' =>
      let '(r, w') := serve c w in
      let '(rs, w'') := run cs' w' in
      (r :: rs, w'')
  end.

Definition is_read (c : call) : bool :=
  match c with
  | PostTrack _ _ => false
  | _ => true
  end.

(** ** Sample data *)

Module Sample.

Definition accept_all (evt : TrafficEvent.t) : option string := None.

Definition empty_db : database :=
  {| name_attr := Ok (Some "traffic");
     collections := ∅;
     next_oid := 1%N;
     clock := Some "2024-01-01 00:00:00";
     fault_list := None; fault_find := None; fault_insert := None |}.

Definition world0 : world :=
  {| db := Some empty_db;
     environ := {[ "DATABASE_URL" := "mongodb://localhost" ]};
     schema_rejects := accept_all |}.

Definition browser : Request :=
  {| headers := [("user-agent", "TestAgent/1.0")];
     client := Some {| host := "10.0.0.7"; port := 51000 |} |}.

Definition home : gmap string jval :=
  {[ "path" := JStr "/home"; "source" := JStr "newsletter" ]}.

Definition no_query : Query := {| q_path := None; q_event := None; q_limit := None |}.

(** A store that holds one foreign record whose [created_at] is 0. *)
Definition zero_stamp : doc := {[ "_id" := VOid 7; "path" := VStr "/old"; "created_at" := VInt 0 ]}.

Definition legacy_db : database :=
  {| name_attr := Ok (Some "traffic");
     collections := {[ event_collection := [zero_stamp] ]};
     next_oid := 8%N;
     clock := None;
     fault_list := None; fault_find := None; fault_insert := None |}.

Definition legacy_world : world :=
  {| db := Some legacy_db; environ := ∅; schema_rejects := accept_all |}.

(** A store of [n] empty records. *)
Definition crowded_db (n : nat) : database :=
  {| name_attr := Ok None;
     collections := {[ event_collection := replicate n (∅ : doc) ]};
     next_oid := 0%N;
     clock := None;
     fault_list := None; fault_find := None; fault_insert := None |}.

Definition crowded_world (n : nat) : world :=
  {| db := Some (crowded_db n); environ := ∅; schema_rejects := accept_all |}.

Definition blank_path : gmap string jval := {[ "path" := JStr "" ]}.

(** A request that came through a proxy, with two forwarding headers. *)
Definition proxied : Request :=
  {| headers := [("accept", "*/*"); ("user-agent", "TestAgent/1.0");
                 ("x-forwarded-for", "203.0.113.9"); ("x-forwarded-for", "198.51.100.2")];
     client := Some {| host := "10.0.0.7"; port := 51000 |} |}.

End Sample.

(** ** Derived descriptions used in the statements *)

(** [d[k] = str(d[k])] when [d.get(k)] is true. *)
Definition stringify (k : string) (d : doc) : doc :=
  if truthy (dict_get d k) then <[k := VStr (py_str (dict_get d k))]> d else d.

(** The document the loop body of [get_stats] leaves behind. *)
Definition normalised (d : doc) : doc :=
  stringify "updated_at"
    (stringify "created_at" (<["_id" := VStr (py_str (dict_get d "_id"))]> d)).

(** The reading of the filter rule with "non-null" as the test. *)
Definition filter_by_non_null (path event : option string) : Prop :=
  (is_Some (stats_filter path event !! "path") ↔ path ≠ None)
  ∧ (is_Some (stats_filter path event !! "event") ↔ event ≠ None)
  ∧ dom (stats_filter path event) ⊆ {[ "path"; "event" ]}.

(** The six fields of the diagnostics report. *)
Definition report_keys : gset string :=
  list_to_set ["backend"; "database"; "database_url"; "database_name";
               "connection_status"; "collections"].

(** The records a read of the event collection finds. *)
Definition found (d : database) (filt : doc) (limit : Z) : list doc :=
  take (Z.to_nat limit) (filter (λ x, matches filt x = true) (docs_of d event_collection)).

(** Field [k] of a returned record is a string whenever it is present. *)
Definition rendered_if_present (k : string) (x : doc) : Prop :=
  ∀ v, x !! k = Some v → is_str v = true.


(** The event [track_event] builds from a payload and a request. *)
Definition event_of (payload : TrackEventIn.t) (request : Request) : TrafficEvent.t :=
  TrafficEvent.Build (TrackEventIn.path payload) (TrackEventIn.source payload)
    (TrackEventIn.event payload)
    (headers_get (headers request) "user-agent" None)
    (headers_get (headers request) "x-forwarded-for" (client_host request)).


(** ** More sample data: stores and schemas that fail *)

Module Faulty.

(** A schema that refuses an empty path. *)
Definition strict (evt : TrafficEvent.t) : option string :=
  if String.eqb (TrafficEvent.path evt) "" then Some "path must not be empty" else None.

(** A handle whose [name] property raises. *)
Definition nameless_db : database :=
  {| name_attr := Raise "name is not readable";
     collections := ∅;
     next_oid := 0%N;
     clock := None;
     fault_list := None; fault_find := None; fault_insert := None |}.

(** A handle that cannot list its collections. *)
Definition unlistable_db : database :=
  {| name_attr := Ok (Some "traffic");
     collections := ∅;
     next_oid := 0%N;
     clock := None;
     fault_list := Some "connection refused"; fault_find := None; fault_insert := None |}.

Definition configured : gmap string string := {[ "DATABASE_URL" := "mongodb://localhost" ]}.

Definition nameless_world : world :=
  {| db := Some nameless_db; environ := configured; schema_rejects := Sample.accept_all |}.

Definition unlistable_world : world :=
  {| db := Some unlistable_db; environ := configured; schema_rejects := Sample.accept_all |}.

Definition no_store_world : world :=
  {| db := None; environ := configured; schema_rejects := strict |}.

End Faulty.

Example str_take_counts_characters :
  str_len "héé ⚠" = 5%nat
  ∧ str_take 2 "héé ⚠" = "hé"
  ∧ str_take 80 "héé ⚠" = "héé ⚠"
  ∧ str_take 0 "héé ⚠" = "".
Proof. vm_compute. repeat split. Qed.

Example track_home :
  (serve (PostTrack Sample.home Sample.browser) Sample.world0).1
  = Tracked (TrackEventOut.Build "1").
Proof. vm_compute. reflexivity. Qed.

Example stats_after_home :
  match (run [PostTrack Sample.home Sample.browser; GetStats Sample.no_query] Sample.world0).1 with
  | [Tracked out; Items [x]] =>
      TrackEventOut.id out = "1"
      ∧ (λ k, x !! k) <$> ["_id"; "path"; "source"; "event"; "user_agent"; "ip"; "created_at"]
        = [Some (VStr "1"); Some (VStr "/home"); Some (VStr "newsletter"); Some (VStr "view");
           Some (VStr "TestAgent/1.0"); Some (VStr "10.0.0.7");
           Some (VStr "2024-01-01 00:00:00")]
  | _ => False
  end.
Proof. vm_compute. split; reflexivity. Qed.

Example diagnostics_without_store :
  match test_database {| db := None; environ := ∅; schema_rejects := Sample.accept_all |} with
  | Ok r => (λ k, r !! k) <$> ["database"; "connection_status"; "database_name"]
            = [Some (RStr "⚠️ Available but not initialized"); Some (RStr "Not Connected");
               Some RNone]
  | Raise _ => False
  end.
Proof. vm_compute. reflexivity. Qed.

Example diagnostics_listing_fails :
  let d := {| name_attr := Ok None; collections := ∅; next_oid := 0%N; clock := None;
              fault_list := Some "timed out"; fault_find := None; fault_insert := None |} in
  match test_database {| db := Some d; environ := ∅; schema_rejects := Sample.accept_all |} with
  | Ok r => (λ k, r !! k) <$> ["database"; "connection_status"; "database_name"; "database_url"]
            = [Some (RStr "⚠️ Connected but Error: timed out"); Some (RStr "Connected");
               Some (RStr "Unknown"); Some (RStr "❌ Not Set")]
  | Raise _ => False
  end.
Proof. vm_compute. reflexivity. Qed.

(** ** Diagnostics *)

Lemma report_keys_initial : dom test_database_initial = report_keys.
Proof. apply (bool_decide_unpack _). vm_compute. exact I. Qed.

Lemma report_keys_absorb (k : string) (X : gset string) :
  bool_decide (k ∈ X) = true → {[k]} ∪ X = X.
Proof.
  intros H. apply bool_decide_eq_true_1 in H.
  apply subseteq_union_1_L, singleton_subseteq_l, H.
Qed.

Ltac report_dom :=
  rewrite ?dom_insert_L, report_keys_initial;
  rewrite ?report_keys_absorb by (vm_compute; reflexivity);
  reflexivity.

Ltac report_field :=
  repeat (rewrite lookup_insert_ne by done);
  first [apply lookup_insert_eq | reflexivity].

(** C3. Whatever the state of the store handle (not set up, an attribute
    access that raises, a collection listing that raises, or none of
    these), [test_database] raises nothing: it returns a report that holds
    all six fields, at most ten collection names among them, and the
    [database] field describes the fault, with the first 80 characters of
    its message. *)
Theorem test_database_never_raises (w : world) :
  ∃ r : report,
    test_database w = Ok r
    ∧ serve GetTest w = (Diagnostics r, w)
    ∧ dom r = report_keys
    ∧ r !! "backend" = Some (RStr "✅ Running")
    ∧ (∃ names, r !! "collections" = Some (RList names) ∧ (length names ≤ 10)%nat)
    ∧ r !! "database" =
        Some (RStr match db w with
                   | None => "⚠️ Available but not initialized"
                   | Some d =>
                       match name_attr d, list_collection_names d with
                       | Raise e, _ => "❌ Error: " +:+ str_take 80 e
                       | Ok _, Raise e => "⚠️ Connected but Error: " +:+ str_take 80 e
                       | Ok _, Ok _ => "✅ Connected & Working"
                       end
                   end).
Proof.
  unfold serve, test_database, test_database_probe, test_database_listing, setitem.
  unfold Py.try_except, Py.bind, Py.modify, Py.lift, Py.ret.
  destruct (db w) as [d|].
  - destruct (name_attr d) as [name|e]; [destruct (list_collection_names d) as [names|e]|].
    all: eexists; split; [reflexivity|split; [reflexivity|]].
    all: split; [report_dom|split; [report_field|]].
    all: split; [eexists; split; [report_field|]|report_field].
    all: rewrite ?length_take; cbn [length]; lia.
  - eexists; split; [reflexivity|split; [reflexivity|]].
    split; [report_dom|split; [report_field|]].
    split; [eexists; split; [report_field|simpl; lia]|report_field].
Qed.

(** ** The query filter *)

Lemma str_truthy_Some (o : option string) :
  str_truthy o = true ↔ ∃ s, o = Some s ∧ s ≠ "".
Proof.
  destruct o as [s|]; simpl.
  - rewrite negb_true_iff. split.
    + intros H. exists s. split; [done|]. intros ->. discriminate.
    + intros (s' & [= <-] & Hs). by apply String.eqb_neq.
  - split; [done|]. by intros (s & ? & _).
Qed.

Lemma stats_filter_path (path event : option string) :
  stats_filter path event !! "path" = if str_truthy path then Some (of_opt path) else None.
Proof.
  unfold stats_filter.
  destruct (str_truthy path), (str_truthy event);
    rewrite ?(lookup_insert_ne _ "event" "path") by done;
    rewrite ?lookup_insert_eq, ?lookup_empty; reflexivity.
Qed.

Lemma stats_filter_event (path event : option string) :
  stats_filter path event !! "event" = if str_truthy event then Some (of_opt event) else None.
Proof.
  unfold stats_filter.
  destruct (str_truthy path), (str_truthy event);
    rewrite ?lookup_insert_eq; try reflexivity;
    rewrite ?(lookup_insert_ne _ "path" "event") by done; apply lookup_empty.
Qed.

Lemma stats_filter_dom (path event : option string) :
  dom (stats_filter path event) ⊆ {[ "path"; "event" ]}.
Proof.
  unfold stats_filter.
  destruct (str_truthy path), (str_truthy event);
    rewrite ?dom_insert_L, ?dom_empty_L;
    intros k; rewrite ?elem_of_union, ?elem_of_singleton, elem_of_empty; tauto.
Qed.

(** C2, as stated, fails for the empty string: [?path=] gives a non-null
    [path] that the filter leaves out. *)
Lemma filter_by_non_null_fails : ¬ filter_by_non_null (Some "") None.
Proof.
  intros (Hpath & _ & _).
  destruct (proj2 Hpath) as [v Hv]; [done|].
  vm_compute in Hv. discriminate.
Qed.

(** C2 (amended). The filter of [get_stats] holds [path] exactly when the
    [path] argument is a non-empty string, and then with that string as
    its value; the same for [event]; it holds no other key. *)
Theorem stats_filter_fields (path event : option string) :
  (stats_filter path event !! "path" = if str_truthy path then VStr <$> path else None)
  ∧ (stats_filter path event !! "event" = if str_truthy event then VStr <$> event else None)
  ∧ (is_Some (stats_filter path event !! "path") ↔ ∃ p, path = Some p ∧ p ≠ "")
  ∧ (is_Some (stats_filter path event !! "event") ↔ ∃ e, event = Some e ∧ e ≠ "")
  ∧ dom (stats_filter path event) ⊆ {[ "path"; "event" ]}.
Proof.
  rewrite stats_filter_path, stats_filter_event.
  rewrite <- !str_truthy_Some.
  split_and!.
  - by destruct path.
  - by destruct event.
  - destruct (str_truthy path); split; intros H; try done; by destruct H.
  - destruct (str_truthy event); split; intros H; try done; by destruct H.
  - apply stats_filter_dom.
Qed.

(** ** Normalisation of the documents read *)

Lemma dict_item_truthy (d : doc) (k : string) :
  truthy (dict_get d k) = true → dict_item d k = Ok (dict_get d k).
Proof.
  unfold dict_get, dict_item. destruct (d !! k); [done|]. simpl. discriminate.
Qed.

(** The loop body never raises: the two indexings [d[k]] are guarded by
    [d.get(k)]. *)
Lemma normalise_spec (d : doc) : normalise d = (Ok (), normalised d).
Proof.
  unfold normalise, normalised, stringify.
  unfold Py.bind, get_, item, setitem, Py.modify, Py.ret.
  set (d1 := <["_id" := VStr (py_str (dict_get d "_id"))]> d).
  destruct (truthy (dict_get d1 "created_at")) eqn:Hc.
  - rewrite (dict_item_truthy _ _ Hc).
    set (d2 := <["created_at" := VStr (py_str (dict_get d1 "created_at"))]> d1).
    destruct (truthy (dict_get d2 "updated_at")) eqn:Hu; [|reflexivity].
    by rewrite (dict_item_truthy _ _ Hu).
  - destruct (truthy (dict_get d1 "updated_at")) eqn:Hu; [|reflexivity].
    by rewrite (dict_item_truthy _ _ Hu).
Qed.

Lemma normalise_all_spec (docs out : list doc) :
  normalise_all docs out = Ok (out ++ (normalised <$> docs)).
Proof.
  revert out. induction docs as [|d docs IH]; intros out; simpl.
  - by rewrite app_nil_r.
  - rewrite normalise_spec, IH, <- app_assoc. reflexivity.
Qed.

Lemma stringify_lookup_ne (k k' : string) (d : doc) :
  k ≠ k' → stringify k d !! k' = d !! k'.
Proof.
  intros Hne. unfold stringify.
  destruct (truthy (dict_get d k)); [by rewrite lookup_insert_ne|done].
Qed.

Lemma stringify_lookup (k : string) (d : doc) :
  stringify k d !! k
  = if truthy (dict_get d k) then Some (VStr (py_str (dict_get d k))) else d !! k.
Proof.
  unfold stringify.
  destruct (truthy (dict_get d k)); [by rewrite lookup_insert_eq|done].
Qed.

Lemma normalised_other (d : doc) (k : string) :
  k ≠ "_id" → k ≠ "created_at" → k ≠ "updated_at" → normalised d !! k = d !! k.
Proof.
  intros H1 H2 H3. unfold normalised.
  rewrite !stringify_lookup_ne by done. by rewrite lookup_insert_ne.
Qed.

Lemma normalised_id (d : doc) :
  normalised d !! "_id" = Some (VStr (py_str (dict_get d "_id"))).
Proof.
  unfold normalised.
  rewrite !stringify_lookup_ne by done. apply lookup_insert_eq.
Qed.

Lemma normalised_created_at (d : doc) :
  normalised d !! "created_at"
  = if truthy (dict_get d "created_at")
    then Some (VStr (py_str (dict_get d "created_at")))
    else d !! "created_at".
Proof.
  unfold normalised.
  rewrite stringify_lookup_ne by done. rewrite stringify_lookup.
  unfold dict_get. rewrite !lookup_insert_ne by done. reflexivity.
Qed.

Lemma normalised_updated_at (d : doc) :
  normalised d !! "updated_at"
  = if truthy (dict_get d "updated_at")
    then Some (VStr (py_str (dict_get d "updated_at")))
    else d !! "updated_at".
Proof.
  unfold normalised.
  rewrite stringify_lookup.
  unfold dict_get. rewrite stringify_lookup_ne by done.
  rewrite !lookup_insert_ne by done. reflexivity.
Qed.

(** C10. On a document without [_id] the loop body of [get_stats] raises
    nothing and sets [_id] to the string "None"; a [created_at] or
    [updated_at] whose value is false in a boolean context is left as it
    is (and one whose value is true becomes its [str]). *)
Theorem normalise_without_id (d : doc) (Hid : d !! "_id" = None) :
  ∃ d' : doc,
    normalise d = (Ok (), d')
    ∧ normalise_all [d] [] = Ok [d']
    ∧ d' !! "_id" = Some (VStr "None")
    ∧ d' !! "created_at"
      = (if truthy (dict_get d "created_at")
         then Some (VStr (py_str (dict_get d "created_at")))
         else d !! "created_at")
    ∧ d' !! "updated_at"
      = (if truthy (dict_get d "updated_at")
         then Some (VStr (py_str (dict_get d "updated_at")))
         else d !! "updated_at").
Proof.
  exists (normalised d). split_and!.
  - apply normalise_spec.
  - by rewrite normalise_all_spec.
  - rewrite normalised_id. unfold dict_get. by rewrite Hid.
  - apply normalised_created_at.
  - apply normalised_updated_at.
Qed.

Lemma normalise_without_id_witness :
  let d : doc := {[ "path" := VStr "/x"; "created_at" := VInt 0; "updated_at" := VNone ]} in
  d !! "_id" = None
  ∧ ∃ d' : doc,
      normalise d = (Ok (), d')
      ∧ normalise_all [d] [] = Ok [d']
      ∧ d' !! "_id" = Some (VStr "None")
      ∧ d' !! "created_at"
        = (if truthy (dict_get d "created_at")
           then Some (VStr (py_str (dict_get d "created_at")))
           else d !! "created_at")
      ∧ d' !! "updated_at"
        = (if truthy (dict_get d "updated_at")
           then Some (VStr (py_str (dict_get d "updated_at")))
           else d !! "updated_at").
Proof.
  intros d. split; [reflexivity|].
  apply (normalise_without_id d). reflexivity.
Defined.

(** ** What the two store handlers compute *)

Lemma get_stats_spec (path event : option string) (limit : Z) (w : world) :
  get_stats path event limit w
  = (match db w with
     | None => HTTPException 500 not_available
     | Some d =>
         match fault_find d with
         | Some e => HTTPException 500 e
         | None => Return (normalised <$> found d (stats_filter path event) limit)
         end
     end, w).
Proof.
  unfold get_stats, try_except_500, Py.bind, get_documents.
  destruct (db w) as [d|]; [|reflexivity].
  destruct (fault_find d); [reflexivity|].
  unfold Py.lift. rewrite normalise_all_spec. reflexivity.
Qed.

Lemma track_event_spec (payload : TrackEventIn.t) (request : Request) (w : world) :
  track_event payload request w
  = match schema_rejects w (event_of payload request) with
    | Some e => (HTTPException 500 e, w)
    | None =>
        match db w with
        | None => (HTTPException 500 not_available, w)
        | Some d =>
            match fault_insert d with
            | Some e => (HTTPException 500 e, w)
            | None =>
                (Return (TrackEventOut.Build (py_str (VOid (next_oid d)))),
                 with_db w (insert_one d event_collection
                              (new_doc d (event_of payload request))))
            end
        end
    end.
Proof.
  unfold track_event, try_except_500, Py.bind, TrafficEvent_new, create_document.
  fold (event_of payload request).
  destruct (schema_rejects w (event_of payload request)); [reflexivity|].
  destruct (db w) as [d|]; [|reflexivity].
  destruct (fault_insert d); reflexivity.
Qed.

Lemma docs_of_insert_one (d : database) (c c' : string) (x : doc) :
  docs_of (insert_one d c x) c' = if decide (c = c') then docs_of d c ++ [x] else docs_of d c'.
Proof.
  unfold docs_of at 1. simpl. rewrite lookup_insert.
  destruct (decide (c = c')); reflexivity.
Qed.

(** ** Ingestion *)

Lemma stored_docs_insert (w : world) (d : database) (c c' : string) (x : doc) :
  db w = Some d →
  stored_docs (with_db w (insert_one d c x)) c'
  = if decide (c = c') then stored_docs w c ++ [x] else stored_docs w c'.
Proof.
  intros Hdb. unfold stored_docs. rewrite Hdb. cbn [db with_db].
  apply docs_of_insert_one.
Qed.

Lemma new_doc_field (d : database) (evt : TrafficEvent.t) (k : string) :
  k ≠ "_id" → k ≠ "created_at" → k ≠ "updated_at" →
  new_doc d evt !! k = event_doc evt !! k.
Proof.
  intros H1 H2 H3. unfold new_doc, stamp.
  rewrite lookup_insert_ne by done.
  destruct (clock d); [|reflexivity].
  by rewrite !lookup_insert_ne by done.
Qed.




Lemma headers_get_first (h before after : list (string * string)) (key v : string)
    (dflt : option string) :
  h = before ++ (key, v) :: after →
  (∀ u, (key, u) ∉ before) →
  headers_get h key dflt = Some v.
Proof.
  intros -> Hbefore. induction before as [|[k u] before IH]; simpl.
  - by rewrite String.eqb_refl.
  - destruct (String.eqb k key) eqn:Hk.
    + apply String.eqb_eq in Hk as ->. destruct (Hbefore u). apply list_elem_of_here.
    + apply IH. intros u' Hu'. apply (Hbefore u'). by apply list_elem_of_further.
Qed.

Lemma headers_get_absent (h : list (string * string)) (key : string) (dflt : option string) :
  (∀ u, (key, u) ∉ h) → headers_get h key dflt = dflt.
Proof.
  intros Habsent. induction h as [|[k u] h IH]; simpl; [reflexivity|].
  destruct (String.eqb k key) eqn:Hk.
  - apply String.eqb_eq in Hk as ->. destruct (Habsent u). apply list_elem_of_here.
  - apply IH. intros u' Hu'. apply (Habsent u'). by apply list_elem_of_further.
Qed.

Lemma event_doc_user_agent (evt : TrafficEvent.t) :
  event_doc evt !! "user_agent" = Some (of_opt (TrafficEvent.user_agent evt)).
Proof. reflexivity. Qed.

Lemma event_doc_ip (evt : TrafficEvent.t) :
  event_doc evt !! "ip" = Some (of_opt (TrafficEvent.ip evt)).
Proof. reflexivity. Qed.

(** C5. The document stored by a successful [track_event] carries as
    [user_agent] the value of the first [user-agent] header of the
    request, or null when the request has no such header; and as [ip]
    the value of the first [x-forwarded-for] header when the request has
    one, otherwise the host of the peer address, otherwise null. *)
Theorem track_event_derived_fields (payload : TrackEventIn.t) (request : Request)
    (w w' : world) (out : TrackEventOut.t)
    (Hdone : track_event payload request w = (Return out, w')) :
  ∃ x : doc,
    last (stored_docs w' event_collection) = Some x
    ∧ (∀ before v after,
         headers request = before ++ ("user-agent", v) :: after →
         (∀ u, ("user-agent", u) ∉ before) →
         x !! "user_agent" = Some (VStr v))
    ∧ ((∀ u, ("user-agent", u) ∉ headers request) → x !! "user_agent" = Some VNone)
    ∧ (∀ before v after,
         headers request = before ++ ("x-forwarded-for", v) :: after →
         (∀ u, ("x-forwarded-for", u) ∉ before) →
         x !! "ip" = Some (VStr v))
    ∧ ((∀ u, ("x-forwarded-for", u) ∉ headers request) →
       x !! "ip" = Some match client request with
                        | Some peer => VStr (host peer)
                        | None => VNone
                        end).
Proof.
  rewrite track_event_spec in Hdone.
  destruct (schema_rejects w (event_of payload request)); [done|].
  destruct (db w) as [d|] eqn:Hdb; [|done].
  destruct (fault_insert d); [done|].
  injection Hdone as _ <-.
  exists (new_doc d (event_of payload request)).
  rewrite (stored_docs_insert _ _ _ _ _ Hdb), decide_True, last_snoc by done.
  split; [reflexivity|].
  rewrite !new_doc_field by done.
  rewrite event_doc_user_agent, event_doc_ip.
  unfold event_of, client_host. cbn [TrafficEvent.user_agent TrafficEvent.ip].
  split_and!.
  - intros before v after Hh Hbefore.
    by rewrite (headers_get_first _ _ _ _ _ _ Hh Hbefore).
  - intros Habsent. by rewrite (headers_get_absent _ _ _ Habsent).
  - intros before v after Hh Hbefore.
    by rewrite (headers_get_first _ _ _ _ _ _ Hh Hbefore).
  - intros Habsent. rewrite (headers_get_absent _ _ _ Habsent).
    by destruct (client request).
Qed.

Lemma track_event_derived_fields_witness :
  let payload := TrackEventIn.Build "/home" "view" (Some "newsletter") in
  let request := Sample.proxied in
  let w := Sample.world0 in
  let w' := (track_event payload request w).2 in
  let out := TrackEventOut.Build "1" in
  track_event payload request w = (Return out, w')
  ∧ ∃ x : doc,
      last (stored_docs w' event_collection) = Some x
      ∧ x !! "user_agent" = Some (VStr "TestAgent/1.0")
      ∧ x !! "ip" = Some (VStr "203.0.113.9").
Proof.
  intros payload request w w' out.
  assert (Hdone : track_event payload request w = (Return out, w')) by reflexivity.
  split; [exact Hdone|].
  destruct (track_event_derived_fields payload request w w' out Hdone)
    as (x & Hlast & Hua & _ & Hip & _).
  exists x. split; [exact Hlast|]. split.
  - apply (Hua [("accept", "*/*")] "TestAgent/1.0"
             [("x-forwarded-for", "203.0.113.9"); ("x-forwarded-for", "198.51.100.2")]).
    + reflexivity.
    + intros u Hu. apply list_elem_of_singleton in Hu. discriminate.
  - apply (Hip [("accept", "*/*"); ("user-agent", "TestAgent/1.0")] "203.0.113.9"
             [("x-forwarded-for", "198.51.100.2")]).
    + reflexivity.
    + intros u Hu. apply elem_of_cons in Hu as [Hu|Hu]; [discriminate|].
      apply list_elem_of_singleton in Hu. discriminate.
Defined.

(** ** The required field of the request body *)

Lemma field_error_elem {A} (name f : string) (o : option A) :
  f ∈ field_error name o ↔ f = name ∧ o = None.
Proof.
  destruct o; simpl.
  - rewrite elem_of_nil. split; [done|]. by intros [_ ?].
  - rewrite list_elem_of_singleton. split; [done|]. by intros [? _].
Qed.

Lemma TrackEventIn_validate_no_path (body : gmap string jval) :
  required_str (body !! "path") = None →
  ∃ fields, TrackEventIn_validate body = inl fields ∧ "path" ∈ fields.
Proof.
  intros Hp. unfold TrackEventIn_validate. rewrite Hp. cbn zeta.
  eexists. split; [reflexivity|]. apply list_elem_of_here.
Qed.

Lemma TrackEventIn_validate_path (body : gmap string jval) (p : string) :
  body !! "path" = Some (JStr p) →
  (∃ e src, TrackEventIn_validate body = inr (TrackEventIn.Build p e src))
  ∨ (∃ fields, TrackEventIn_validate body = inl fields ∧ "path" ∉ fields).
Proof.
  intros Hp. unfold TrackEventIn_validate. rewrite Hp. cbn zeta. simpl required_str.
  destruct (defaulted_str (body !! "event") "view") as [e|],
           (optional_str (body !! "source")) as [src|].
  1: left; by eexists _, _.
  all: right; eexists; (split; [reflexivity|]).
  all: rewrite !elem_of_app, !field_error_elem; intros [[? ?]|[[? ?]|[? ?]]]; discriminate.
Qed.

(** C1, as stated, fails for the empty string: a body whose [path] is the
    empty string is answered with 200 and its event is stored. *)
Lemma blank_path_is_tracked :
  Sample.blank_path !! "path" = Some (JStr "")
  ∧ status (serve (PostTrack Sample.blank_path Sample.browser) Sample.world0).1 = 200
  ∧ (λ x : doc, x !! "path")
      <$> stored_docs (serve (PostTrack Sample.blank_path Sample.browser) Sample.world0).2
            event_collection
    = [Some (VStr "")].
Proof. split_and!; vm_compute; reflexivity. Qed.

(** C1 (amended). A body without [path], or with a null [path], is
    rejected by the validation of the request with status 422, [path]
    among the fields in error, and the store is as it was.  A body whose
    [path] is a string, the empty string included, is not in error on
    [path], and a document the call stores holds that string as its
    [path]: every stored event has a [path], which may be empty. *)
Theorem track_requires_path (body : gmap string jval) (request : Request) (w : world) :
  ∃ (r : response) (w' : world),
    serve (PostTrack body request) w = (r, w')
    ∧ match body !! "path" with
      | Some (JStr p) =>
          (∀ fields, r = Unprocessable fields → "path" ∉ fields)
          ∧ (w' = w
             ∨ ∃ x : doc,
                 stored_docs w' event_collection = stored_docs w event_collection ++ [x]
                 ∧ x !! "path" = Some (VStr p))
      | _ =>
          w' = w ∧ status r = 422
          ∧ ∃ fields, r = Unprocessable fields ∧ "path" ∈ fields
      end.
Proof.
  destruct (required_str (body !! "path")) as [p|] eqn:Hp.
  - assert (Hbody : body !! "path" = Some (JStr p)).
    { destruct (body !! "path") as [[]|]; simpl in Hp; congruence. }
    rewrite Hbody.
    destruct (TrackEventIn_validate_path body p Hbody)
      as [(e & src & Hok)|(fields & Hno & Hfields)]; unfold serve.
    + rewrite Hok, track_event_spec.
      set (payload := TrackEventIn.Build p e src).
      destruct (schema_rejects w (event_of payload request));
        [do 2 eexists; split; [reflexivity|]; split; [done|by left]|].
      destruct (db w) as [d|] eqn:Hdb;
        [|do 2 eexists; split; [reflexivity|]; split; [done|by left]].
      destruct (fault_insert d);
        [do 2 eexists; split; [reflexivity|]; split; [done|by left]|].
      do 2 eexists. split; [reflexivity|]. split; [done|]. right.
      exists (new_doc d (event_of payload request)).
      rewrite (stored_docs_insert _ _ _ _ _ Hdb), decide_True by done.
      split; [reflexivity|]. by rewrite new_doc_field.
    + rewrite Hno. do 2 eexists. split; [reflexivity|]. split; [|by left].
      by intros fields' [= <-].
  - destruct (TrackEventIn_validate_no_path body Hp) as (fields & Hno & Hfields).
    assert (Hgoal : ∃ (r : response) (w' : world),
               serve (PostTrack body request) w = (r, w')
               ∧ w' = w ∧ status r = 422
               ∧ ∃ fields, r = Unprocessable fields ∧ "path" ∈ fields).
    { unfold serve. rewrite Hno. do 2 eexists. split; [reflexivity|].
      split; [done|]. split; [done|]. by exists fields. }
    destruct (body !! "path") as [[]|]; simpl in Hp; try discriminate; exact Hgoal.
Qed.

(** ** The limit of a query *)

Lemma serve_stats (q : Query) (w : world) :
  serve (GetStats q) w
  = (render Items
       match db w with
       | None => HTTPException 500 not_available
       | Some d =>
           match fault_find d with
           | Some e => HTTPException 500 e
           | None =>
               Return (normalised <$>
                         found d (stats_filter (q_path q) (q_event q)) (default 50 (q_limit q)))
           end
       end, w).
Proof. unfold serve. by rewrite get_stats_spec. Qed.

Lemma found_length (d : database) (filt : doc) (limit : Z) :
  0 ≤ limit → Z.of_nat (length (found d filt limit)) ≤ limit.
Proof. intros H. unfold found. rewrite length_take. lia. Qed.

Lemma filter_replicate {A} (P : A → Prop) `{!∀ x, Decision (P x)} (n : nat) (x : A) :
  P x → filter P (replicate n x) = replicate n x.
Proof.
  intros Hx. induction n as [|n IH]; [reflexivity|].
  simpl. rewrite filter_cons_True by done. by rewrite IH.
Qed.

Lemma found_crowded (n : nat) :
  found (Sample.crowded_db n) (stats_filter None None) (Z.of_nat n) = replicate n ∅.
Proof.
  unfold found, docs_of, Sample.crowded_db. cbn [collections].
  rewrite lookup_singleton_eq. simpl default.
  rewrite filter_replicate by reflexivity.
  rewrite Nat2Z.id. apply take_ge. by rewrite length_replicate.
Qed.

(** C7. A query without [limit] is the query with [limit=50]; a
    successful query with a non-negative limit returns at most that many
    records; and the handler puts no ceiling on the limit: for every [n]
    there is a store on which [limit=n] returns [n] records. *)
Theorem stats_limit (q : Query) (w : world) (items : list doc)
    (Hlimit : 0 ≤ default 50 (q_limit q))
    (Hitems : (serve (GetStats q) w).1 = Items items) :
  Z.of_nat (length items) ≤ default 50 (q_limit q)
  ∧ serve (GetStats {| q_path := q_path q; q_event := q_event q; q_limit := None |}) w
    = serve (GetStats {| q_path := q_path q; q_event := q_event q; q_limit := Some 50 |}) w
  ∧ ∀ n : nat, ∃ (w0 : world) (found_items : list doc),
      (serve (GetStats {| q_path := None; q_event := None; q_limit := Some (Z.of_nat n) |})
         w0).1 = Items found_items
      ∧ length found_items = n.
Proof.
  split_and!.
  - rewrite serve_stats in Hitems. cbn [fst] in Hitems.
    destruct (db w) as [d|]; [|done].
    destruct (fault_find d); [done|].
    injection Hitems as <-. rewrite length_fmap. by apply found_length.
  - reflexivity.
  - intros n. exists (Sample.crowded_world n). eexists.
    rewrite serve_stats. cbn [fst db Sample.crowded_world].
    cbn [fault_find Sample.crowded_db render q_path q_event q_limit default].
    split; [reflexivity|].
    rewrite length_fmap, found_crowded. apply length_replicate.
Qed.

Lemma stats_limit_witness :
  let q := Sample.no_query in
  let w := (serve (PostTrack Sample.home Sample.browser) Sample.world0).2 in
  let items := normalised <$> stored_docs w event_collection in
  0 ≤ default 50 (q_limit q)
  ∧ (serve (GetStats q) w).1 = Items items
  ∧ Z.of_nat (length items) ≤ default 50 (q_limit q)
  ∧ serve (GetStats {| q_path := q_path q; q_event := q_event q; q_limit := None |}) w
    = serve (GetStats {| q_path := q_path q; q_event := q_event q; q_limit := Some 50 |}) w
  ∧ ∀ n : nat, ∃ (w0 : world) (found_items : list doc),
      (serve (GetStats {| q_path := None; q_event := None; q_limit := Some (Z.of_nat n) |})
         w0).1 = Items found_items
      ∧ length found_items = n.
Proof.
  intros q w items.
  assert (Hlimit : 0 ≤ default 50 (q_limit q)) by (vm_compute; discriminate).
  assert (Hitems : (serve (GetStats q) w).1 = Items items) by (vm_compute; reflexivity).
  split; [exact Hlimit|]. split; [exact Hitems|].
  exact (stats_limit q w items Hlimit Hitems).
Defined.

(** ** Reads and writes of the store *)

Lemma serve_read (c : call) (w : world) : is_read c = true → (serve c w).2 = w.
Proof.
  destruct c as [| |body request|q]; simpl is_read; intros H; try done.
  - simpl. by destruct (test_database w).
  - by rewrite serve_stats.
Qed.

Lemma run_cons (c : call) (cs : list call) (w : world) :
  (run (c :: cs) w).2 = (run cs (serve c w).2).2.
Proof.
  simpl. destruct (serve c w) as [r w1]. simpl.
  by destruct (run cs w1).
Qed.

Lemma run_reads (cs : list call) (w : world) :
  forallb is_read cs = true → (run cs w).2 = w.
Proof.
  revert w. induction cs as [|c cs IH]; intros w H; [reflexivity|].
  simpl in H. apply andb_true_iff in H as [Hc Hcs].
  rewrite run_cons, (serve_read _ _ Hc). by apply IH.
Qed.

Lemma serve_track_store (body : gmap string jval) (request : Request) (w : world) :
  (serve (PostTrack body request) w).2 = w
  ∨ ∃ (d : database) (x : doc),
      db w = Some d
      ∧ (serve (PostTrack body request) w).2 = with_db w (insert_one d event_collection x).
Proof.
  unfold serve. destruct (TrackEventIn_validate body) as [fields|payload]; [by left|].
  rewrite track_event_spec.
  destruct (schema_rejects w (event_of payload request)); [by left|].
  destruct (db w) as [d|]; [|by left].
  destruct (fault_insert d); [by left|].
  right. by eexists _, _.
Qed.

Lemma serve_prefix (c : call) (w : world) (col : string) :
  stored_docs w col `prefix_of` stored_docs (serve c w).2 col.
Proof.
  destruct (is_read c) eqn:Hread; [by rewrite serve_read|].
  destruct c as [| |body request|q]; try done.
  destruct (serve_track_store body request w) as [->|(d & x & Hdb & ->)]; [done|].
  rewrite (stored_docs_insert _ _ _ _ _ Hdb).
  destruct (decide (event_collection = col)) as [<-|]; [|done].
  by apply prefix_app_r.
Qed.

Lemma run_prefix (cs : list call) (w : world) (col : string) :
  stored_docs w col `prefix_of` stored_docs (run cs w).2 col.
Proof.
  revert w. induction cs as [|c cs IH]; intros w; [done|].
  rewrite run_cons. etrans; [apply serve_prefix|apply IH].
Qed.

(** C8. Along every sequence of requests the documents of every
    collection only grow at the end: what was stored stays, in place and
    unchanged.  A track request leaves the store as it was or appends one
    document to the event collection; the stats and diagnostics requests
    leave the store as it was. *)
Theorem append_only (cs : list call) (w : world) :
  (∀ col, stored_docs w col `prefix_of` stored_docs (run cs w).2 col)
  ∧ (∀ body request,
       (serve (PostTrack body request) w).2 = w
       ∨ ∃ (d : database) (x : doc),
           db w = Some d
           ∧ (serve (PostTrack body request) w).2
             = with_db w (insert_one d event_collection x))
  ∧ (∀ q, (serve (GetStats q) w).2 = w)
  ∧ (serve GetTest w).2 = w.
Proof.
  split_and!.
  - intros col. apply run_prefix.
  - intros body request. apply serve_track_store.
  - intros q. by apply serve_read.
  - by apply serve_read.
Qed.

(** ** Records returned by the query handler *)

(** The condition on the stored records in the statement below cannot be
    dropped: a record whose [created_at] is the integer 0, which this
    service never writes, comes back with that integer. *)
Lemma zero_created_at_not_rendered :
  ∃ x : doc,
    (serve (GetStats Sample.no_query) Sample.legacy_world).1 = Items [x]
    ∧ x !! "created_at" = Some (VInt 0)
    ∧ ¬ rendered_if_present "created_at" x.
Proof.
  eexists. split; [vm_compute; reflexivity|].
  split; [reflexivity|].
  intros H. specialize (H (VInt 0) eq_refl). discriminate.
Qed.











(** * Further properties of the handlers *)

(** ** The diagnostics report, field by field *)

(** The report after the probe, by the point at which the probe stops. *)
Lemma test_database_spec (w : world) :
  test_database w
  = Ok match db w with
       | None => <["database" := RStr "⚠️ Available but not initialized"]> test_database_initial
       | Some d =>
           let r1 : report :=
             <["database_url" :=
                 RStr (if str_truthy (os_getenv w "DATABASE_URL") then "✅ Set" else "❌ Not Set")]>
               (<["database" := RStr "✅ Available"]> test_database_initial) in
           match name_attr d with
           | Raise e => <["database" := RStr ("❌ Error: " +:+ str_take 80 e)]> r1
           | Ok name =>
               let r2 : report :=
                 <["connection_status" := RStr "Connected"]>
                   (<["database_name" := RStr (str_or name "Unknown")]> r1) in
               match list_collection_names d with
               | Raise e =>
                   <["database" := RStr ("⚠️ Connected but Error: " +:+ str_take 80 e)]> r2
               | Ok names =>
                   <["database" := RStr "✅ Connected & Working"]>
                     (<["collections" := RList (take 10 names)]> r2)
               end
           end
       end.
Proof.
  unfold test_database, test_database_probe, test_database_listing, setitem.
  unfold Py.try_except, Py.bind, Py.modify, Py.lift, Py.ret.
  destruct (db w) as [d|]; [|reflexivity].
  destruct (name_attr d) as [name|e]; [|reflexivity].
  destruct (list_collection_names d); reflexivity.
Qed.

(** X1. When reading the name of the store handle raises, the report
    keeps what was written before the fault and nothing of what comes
    after: [database_url] tells whether DATABASE_URL is set, while
    [database_name] is still null, [connection_status] still
    "Not Connected" and [collections] still empty. *)
Theorem test_database_stops_at_name (w : world) (d : database) (e : string)
    (Hdb : db w = Some d) (Hname : name_attr d = Raise e) :
  ∃ r : report,
    test_database w = Ok r
    ∧ r !! "database" = Some (RStr ("❌ Error: " +:+ str_take 80 e))
    ∧ r !! "database_url"
      = Some (RStr (if str_truthy (os_getenv w "DATABASE_URL") then "✅ Set" else "❌ Not Set"))
    ∧ r !! "database_name" = Some RNone
    ∧ r !! "connection_status" = Some (RStr "Not Connected")
    ∧ r !! "collections" = Some (RList []).
Proof.
  rewrite test_database_spec, Hdb. cbn zeta. rewrite Hname.
  eexists. split; [reflexivity|]. split_and!; report_field.
Qed.

Lemma test_database_stops_at_name_witness :
  let w := Faulty.nameless_world in
  let d := Faulty.nameless_db in
  let e := "name is not readable" in
  db w = Some d ∧ name_attr d = Raise e
  ∧ ∃ r : report,
      test_database w = Ok r
      ∧ r !! "database" = Some (RStr ("❌ Error: " +:+ str_take 80 e))
      ∧ r !! "database_url"
        = Some (RStr (if str_truthy (os_getenv w "DATABASE_URL") then "✅ Set" else "❌ Not Set"))
      ∧ r !! "database_name" = Some RNone
      ∧ r !! "connection_status" = Some (RStr "Not Connected")
      ∧ r !! "collections" = Some (RList []).
Proof.
  intros w d e. split; [reflexivity|]. split; [reflexivity|].
  apply (test_database_stops_at_name w d e); reflexivity.
Defined.

(** X2. When only the listing of the collections raises, the report
    already says "Connected" and names the database, and [collections]
    stays empty. *)
Theorem test_database_stops_at_listing (w : world) (d : database) (name : option string)
    (e : string)
    (Hdb : db w = Some d) (Hname : name_attr d = Ok name) (Hlist : fault_list d = Some e) :
  ∃ r : report,
    test_database w = Ok r
    ∧ r !! "database" = Some (RStr ("⚠️ Connected but Error: " +:+ str_take 80 e))
    ∧ r !! "database_name" = Some (RStr (str_or name "Unknown"))
    ∧ r !! "connection_status" = Some (RStr "Connected")
    ∧ r !! "collections" = Some (RList []).
Proof.
  rewrite test_database_spec, Hdb. cbn zeta. rewrite Hname.
  unfold list_collection_names. rewrite Hlist.
  eexists. split; [reflexivity|]. split_and!; report_field.
Qed.

Lemma test_database_stops_at_listing_witness :
  let w := Faulty.unlistable_world in
  let d := Faulty.unlistable_db in
  let name := Some "traffic" in
  let e := "connection refused" in
  db w = Some d ∧ name_attr d = Ok name ∧ fault_list d = Some e
  ∧ ∃ r : report,
      test_database w = Ok r
      ∧ r !! "database" = Some (RStr ("⚠️ Connected but Error: " +:+ str_take 80 e))
      ∧ r !! "database_name" = Some (RStr (str_or name "Unknown"))
      ∧ r !! "connection_status" = Some (RStr "Connected")
      ∧ r !! "collections" = Some (RList []).
Proof.
  intros w d name e. do 3 (split; [reflexivity|]).
  apply (test_database_stops_at_listing w d name e); reflexivity.
Defined.

(** X3. On a handle whose name can be read and whose collections can be
    listed, the report holds the first ten collection names (all of them
    when there are fewer), the name of the database, or "Unknown" when the
    name is missing or empty, and the flag for DATABASE_URL, which is
    "Not Set" also for a variable set to the empty string. *)
Theorem test_database_healthy (w : world) (d : database) (name : option string)
    (Hdb : db w = Some d) (Hname : name_attr d = Ok name) (Hlist : fault_list d = None) :
  ∃ (r : report) (names : list string),
    test_database w = Ok r
    ∧ list_collection_names d = Ok names
    ∧ r !! "database" = Some (RStr "✅ Connected & Working")
    ∧ r !! "collections" = Some (RList (take 10 names))
    ∧ ((length names ≤ 10)%nat → r !! "collections" = Some (RList names))
    ∧ r !! "connection_status" = Some (RStr "Connected")
    ∧ r !! "database_name"
      = Some (RStr match name with
                   | Some n => if String.eqb n "" then "Unknown" else n
                   | None => "Unknown"
                   end)
    ∧ r !! "database_url"
      = Some (RStr match environ w !! "DATABASE_URL" with
                   | Some url => if String.eqb url "" then "❌ Not Set" else "✅ Set"
                   | None => "❌ Not Set"
                   end).
Proof.
  rewrite test_database_spec, Hdb. cbn zeta. rewrite Hname.
  unfold list_collection_names. rewrite Hlist.
  eexists _, _. split; [reflexivity|]. split; [reflexivity|].
  split_and!; try report_field.
  - intros Hlen. rewrite <- (take_ge _ 10 Hlen) at 2. report_field.
  - repeat (rewrite lookup_insert_ne by done). rewrite lookup_insert_eq.
    unfold os_getenv, str_truthy.
    destruct (environ w !! "DATABASE_URL") as [url|]; [|reflexivity].
    by destruct (String.eqb url "").
Qed.

Lemma test_database_healthy_witness :
  let w := Sample.legacy_world in
  let d := Sample.legacy_db in
  let name := Some "traffic" in
  db w = Some d ∧ name_attr d = Ok name ∧ fault_list d = None
  ∧ ∃ (r : report) (names : list string),
      test_database w = Ok r
      ∧ list_collection_names d = Ok names
      ∧ r !! "database" = Some (RStr "✅ Connected & Working")
      ∧ r !! "collections" = Some (RList (take 10 names))
      ∧ ((length names ≤ 10)%nat → r !! "collections" = Some (RList names))
      ∧ r !! "connection_status" = Some (RStr "Connected")
      ∧ r !! "database_name"
        = Some (RStr match name with
                     | Some n => if String.eqb n "" then "Unknown" else n
                     | None => "Unknown"
                     end)
      ∧ r !! "database_url"
        = Some (RStr match environ w !! "DATABASE_URL" with
                     | Some url => if String.eqb url "" then "❌ Not Set" else "✅ Set"
                     | None => "❌ Not Set"
                     end).
Proof.
  intros w d name. do 3 (split; [reflexivity|]).
  apply (test_database_healthy w d name); reflexivity.
Defined.

(** X4. Without a store handle the report is the initial one with only
    [database] rewritten: [database_url] and [database_name] stay null
    whatever the environment holds, DATABASE_URL included. *)
Theorem test_database_without_handle (w : world) (Hdb : db w = None) :
  test_database w
  = Ok (<["database" := RStr "⚠️ Available but not initialized"]> test_database_initial)
  ∧ ∃ r : report,
      test_database w = Ok r
      ∧ r !! "database_url" = Some RNone
      ∧ r !! "database_name" = Some RNone
      ∧ r !! "connection_status" = Some (RStr "Not Connected")
      ∧ r !! "collections" = Some (RList []).
Proof.
  rewrite test_database_spec, Hdb. split; [reflexivity|].
  eexists. split; [reflexivity|]. split_and!; report_field.
Qed.

Lemma test_database_without_handle_witness :
  let w := Faulty.no_store_world in
  db w = None
  ∧ environ w !! "DATABASE_URL" = Some "mongodb://localhost"
  ∧ test_database w
    = Ok (<["database" := RStr "⚠️ Available but not initialized"]> test_database_initial)
  ∧ ∃ r : report,
      test_database w = Ok r
      ∧ r !! "database_url" = Some RNone
      ∧ r !! "database_name" = Some RNone
      ∧ r !! "connection_status" = Some (RStr "Not Connected")
      ∧ r !! "collections" = Some (RList []).
Proof.
  intros w. split; [reflexivity|]. split; [reflexivity|].
  apply (test_database_without_handle w). reflexivity.
Defined.

Lemma test_database_status (w : world) :
  ∃ r : report,
    test_database w = Ok r
    ∧ r !! "database"
      = Some (RStr match db w with
                   | None => "⚠️ Available but not initialized"
                   | Some d =>
                       match name_attr d, list_collection_names d with
                       | Raise e, _ => "❌ Error: " +:+ str_take 80 e
                       | Ok _, Raise e => "⚠️ Connected but Error: " +:+ str_take 80 e
                       | Ok _, Ok _ => "✅ Connected & Working"
                       end
                   end).
Proof.
  rewrite test_database_spec. eexists. split; [reflexivity|].
  destruct (db w) as [d|]; [|report_field].
  cbn zeta. destruct (name_attr d); [|report_field].
  destruct (list_collection_names d); report_field.
Qed.

(** X5. Two of the labels the handler writes are never reported: the
    initial "Not Available" and the intermediate "Available" are always
    overwritten before the report is returned. *)
Theorem test_database_dead_labels (w : world) :
  ∃ (r : report) (s : string),
    test_database w = Ok r
    ∧ r !! "database" = Some (RStr s)
    ∧ s ≠ "❌ Not Available"
    ∧ s ≠ "✅ Available".
Proof.
  destruct (test_database_status w) as (r & Hr & Hs).
  exists r. eexists. split; [exact Hr|]. split; [exact Hs|].
  destruct (db w) as [d|]; [|split; discriminate].
  destruct (name_attr d); [destruct (list_collection_names d)|]; split; discriminate.
Qed.

(** ** The fault text of the report *)

Lemma str_take_length (n : nat) (s : string) :
  str_len (str_take n s) = Nat.min n (str_len s).
Proof.
  revert n. induction s as [|c s IH]; intros n; simpl.
  - by rewrite Nat.min_0_r.
  - destruct (is_continuation c) eqn:Hc; simpl.
    + by rewrite Hc, IH.
    + destruct n as [|n]; simpl; [reflexivity|]. by rewrite Hc, IH.
Qed.

Lemma str_take_prefix (n : nat) (s : string) : ∃ rest, s = str_take n s +:+ rest.
Proof.
  revert n. induction s as [|c s IH]; intros n; simpl.
  - by exists "".
  - destruct (is_continuation c).
    + destruct (IH n) as [rest Hrest]. exists rest.
      change (String c s = String c (str_take n s +:+ rest)). by rewrite <- Hrest.
    + destruct n as [|n]; [by exists (String c s)|].
      destruct (IH n) as [rest Hrest]. exists rest.
      change (String c s = String c (str_take n s +:+ rest)). by rewrite <- Hrest.
Qed.

Lemma str_take_all (n : nat) (s : string) :
  (str_len s ≤ n)%nat → str_take n s = s.
Proof.
  revert n. induction s as [|c s IH]; intros n; simpl; [reflexivity|].
  destruct (is_continuation c); intros H.
  - by rewrite IH.
  - destruct n as [|n]; [lia|]. rewrite IH by lia. reflexivity.
Qed.

(** X6. The text of a fault enters the report cut to its first 80
    characters: what follows the fixed label is a prefix of the message,
    at most 80 characters long, and the whole message when that has at
    most 80 characters.  This holds for a fault of the name access and
    for a fault of the listing alike. *)
Theorem test_database_fault_text (w : world) (d : database) (e : string)
    (Hdb : db w = Some d)
    (Hfault : name_attr d = Raise e
              ∨ (∃ name, name_attr d = Ok name) ∧ fault_list d = Some e) :
  ∃ (r : report) (label shown rest : string),
    test_database w = Ok r
    ∧ r !! "database" = Some (RStr (label +:+ shown))
    ∧ (label = "❌ Error: " ∨ label = "⚠️ Connected but Error: ")
    ∧ e = shown +:+ rest
    ∧ (str_len shown ≤ 80)%nat
    ∧ ((str_len e ≤ 80)%nat → shown = e).
Proof.
  destruct (test_database_status w) as (r & Hr & Hs). rewrite Hdb in Hs.
  destruct (str_take_prefix 80 e) as [rest Hrest].
  exists r.
  destruct Hfault as [Hname|[[name Hname] Hlist]]; rewrite Hname in Hs.
  - exists "❌ Error: ", (str_take 80 e), rest.
    split_and!; [done|done|by left|done| |apply str_take_all].
    rewrite str_take_length. lia.
  - unfold list_collection_names in Hs. rewrite Hlist in Hs.
    exists "⚠️ Connected but Error: ", (str_take 80 e), rest.
    split_and!; [done|done|by right|done| |apply str_take_all].
    rewrite str_take_length. lia.
Qed.

Lemma test_database_fault_text_witness :
  let w := Faulty.unlistable_world in
  let d := Faulty.unlistable_db in
  let e := "connection refused" in
  db w = Some d
  ∧ (name_attr d = Raise e ∨ (∃ name, name_attr d = Ok name) ∧ fault_list d = Some e)
  ∧ ∃ (r : report) (label shown rest : string),
      test_database w = Ok r
      ∧ r !! "database" = Some (RStr (label +:+ shown))
      ∧ (label = "❌ Error: " ∨ label = "⚠️ Connected but Error: ")
      ∧ e = shown +:+ rest
      ∧ (str_len shown ≤ 80)%nat
      ∧ ((str_len e ≤ 80)%nat → shown = e).
Proof.
  intros w d e.
  assert (Hfault : name_attr d = Raise e
                   ∨ (∃ name, name_attr d = Ok name) ∧ fault_list d = Some e).
  { right. split; [by eexists|reflexivity]. }
  split; [reflexivity|]. split; [exact Hfault|].
  exact (test_database_fault_text w d e eq_refl Hfault).
Defined.

(** ** The loop of the query handler *)

Lemma stringify_dom (k : string) (d : doc) : dom (stringify k d) = dom d.
Proof.
  unfold stringify, dict_get.
  destruct (d !! k) as [v|] eqn:Hk; simpl; [|reflexivity].
  destruct (truthy v); [|reflexivity].
  rewrite dom_insert_L. apply subseteq_union_1_L, singleton_subseteq_l.
  apply elem_of_dom. by exists v.
Qed.

(** X7. The loop body, on any document, raises nothing, always leaves an
    [_id] behind (the [str] of the old one), adds no other field and
    takes none away, and leaves every field other than [_id],
    [created_at] and [updated_at] as it was. *)
Theorem normalise_touches_three_fields (d : doc) :
  ∃ d' : doc,
    normalise d = (Ok (), d')
    ∧ d' !! "_id" = Some (VStr (py_str (dict_get d "_id")))
    ∧ dom d' = {["_id"]} ∪ dom d
    ∧ ∀ k, k ≠ "_id" → k ≠ "created_at" → k ≠ "updated_at" → d' !! k = d !! k.
Proof.
  exists (normalised d). split_and!.
  - apply normalise_spec.
  - apply normalised_id.
  - unfold normalised. rewrite !stringify_dom. apply dom_insert_L.
  - apply normalised_other.
Qed.

Lemma normalised_idempotent (d : doc) : normalised (normalised d) = normalised d.
Proof.
  apply map_eq. intros k.
  destruct (decide (k = "_id")) as [->|H1].
  { rewrite (normalised_id (normalised d)). unfold dict_get at 1.
    by rewrite normalised_id. }
  destruct (decide (k = "created_at")) as [->|H2].
  { rewrite (normalised_created_at (normalised d)). unfold dict_get at 1 2.
    rewrite normalised_created_at.
    destruct (truthy (dict_get d "created_at")) eqn:Ht; simpl.
    - by destruct (String.eqb _ "").
    - unfold dict_get in Ht. by rewrite Ht. }
  destruct (decide (k = "updated_at")) as [->|H3].
  { rewrite (normalised_updated_at (normalised d)). unfold dict_get at 1 2.
    rewrite normalised_updated_at.
    destruct (truthy (dict_get d "updated_at")) eqn:Ht; simpl.
    - by destruct (String.eqb _ "").
    - unfold dict_get in Ht. by rewrite Ht. }
  by rewrite normalised_other.
Qed.

(** X8. Running the loop body a second time on a document changes
    nothing: a document that reaches the loop twice, or whose fields are
    strings already, comes out the same. *)
Theorem normalise_twice (d : doc) :
  ∃ d' : doc, normalise d = (Ok (), d') ∧ normalise d' = (Ok (), d').
Proof.
  exists (normalised d). split; [apply normalise_spec|].
  rewrite normalise_spec. by rewrite normalised_idempotent.
Qed.

(** X9. The loop raises on no list of documents, whatever they hold; it
    appends to [out] one record per document, in the order of the
    documents, each the result of the loop body on its document. *)
Theorem normalise_all_in_order (docs out : list doc) :
  ∃ added : list doc,
    normalise_all docs out = Ok (out ++ added)
    ∧ length added = length docs
    ∧ Forall2 (λ d x, normalise d = (Ok (), x)) docs added.
Proof.
  exists (normalised <$> docs). split_and!.
  - apply normalise_all_spec.
  - apply length_fmap.
  - apply Forall2_fmap_r, Forall_Forall2_diag, Forall_forall.
    intros d _. apply normalise_spec.
Qed.

(** ** Blank query arguments *)

Lemma stats_filter_blank (path event : option string) :
  stats_filter path event
  = stats_filter (if str_truthy path then path else None)
                 (if str_truthy event then event else None).
Proof.
  unfold stats_filter.
  destruct (str_truthy path) eqn:Hp, (str_truthy event) eqn:He;
    rewrite ?Hp, ?He; reflexivity.
Qed.

(** X10. An empty [path] or [event] argument ([?path=], [?event=]) is
    answered exactly as if the argument had been left out, on every
    store. *)
Theorem stats_blank_is_omitted (path event : option string) (limit : option Z) (w : world) :
  serve (GetStats {| q_path := Some ""; q_event := event; q_limit := limit |}) w
  = serve (GetStats {| q_path := None; q_event := event; q_limit := limit |}) w
  ∧ serve (GetStats {| q_path := path; q_event := Some ""; q_limit := limit |}) w
    = serve (GetStats {| q_path := path; q_event := None; q_limit := limit |}) w.
Proof.
  rewrite !serve_stats. cbn [q_path q_event q_limit].
  split.
  - by rewrite (stats_filter_blank (Some "") event), (stats_filter_blank None event).
  - by rewrite (stats_filter_blank path (Some "")), (stats_filter_blank path None).
Qed.

(** ** The request model *)

Lemma required_str_None (o : option jval) :
  required_str o = None ↔ ∀ p, o ≠ Some (JStr p).
Proof.
  destruct o as [[]|]; simpl; split; try done.
  intros H. by destruct (H s).
Qed.

Lemma defaulted_str_None (o : option jval) (d : string) :
  defaulted_str o d = None ↔ ∃ v, o = Some v ∧ ∀ e, v ≠ JStr e.
Proof.
  destruct o as [[]|]; simpl; split; try done.
  all: try (intros _; eexists; split; [reflexivity|]; intros e; discriminate).
  - intros (v & [= <-] & H). by destruct (H s).
  - by intros (v & ? & _).
Qed.

Lemma optional_str_None (o : option jval) :
  optional_str o = None ↔ ∃ v, o = Some v ∧ v ≠ JNull ∧ ∀ s, v ≠ JStr s.
Proof.
  destruct o as [[]|]; simpl; split; try done.
  all: try (intros _; eexists; split; [reflexivity|]; split; [|intros s']; discriminate).
  - by intros (v & [= <-] & H & _).
  - intros (v & [= <-] & _ & H). by destruct (H s).
  - by intros (v & ? & _).
Qed.

(** X11. What the validation of a body against [TrackEventIn] decides.
    An accepted body has a string [path], taken as it is; its [event] is
    the string sent, or "view" when the field is left out; its [source]
    is the string sent, or null when the field is left out or null.  A
    rejected body names at least one field: [path] exactly when the body
    has no string [path], [event] exactly when [event] is sent and is
    not a string, [source] exactly when [source] is sent and is neither
    null nor a string, and no other field. *)
Theorem TrackEventIn_validate_decides (body : gmap string jval) :
  match TrackEventIn_validate body with
  | inr payload =>
      body !! "path" = Some (JStr (TrackEventIn.path payload))
      ∧ match body !! "event" with
        | Some (JStr e) => TrackEventIn.event payload = e
        | None => TrackEventIn.event payload = "view"
        | Some _ => False
        end
      ∧ match body !! "source" with
        | Some (JStr s) => TrackEventIn.source payload = Some s
        | Some JNull | None => TrackEventIn.source payload = None
        | Some _ => False
        end
  | inl fields =>
      fields ≠ []
      ∧ ("path" ∈ fields ↔ ∀ p, body !! "path" ≠ Some (JStr p))
      ∧ ("event" ∈ fields ↔ ∃ v, body !! "event" = Some v ∧ ∀ e, v ≠ JStr e)
      ∧ ("source" ∈ fields
         ↔ ∃ v, body !! "source" = Some v ∧ v ≠ JNull ∧ ∀ s, v ≠ JStr s)
      ∧ ∀ f, f ∈ fields → f = "path" ∨ f = "event" ∨ f = "source"
  end.
Proof.
  unfold TrackEventIn_validate. cbn zeta.
  destruct (required_str (body !! "path")) as [p|] eqn:Hp,
           (defaulted_str (body !! "event") "view") as [e|] eqn:He,
           (optional_str (body !! "source")) as [src|] eqn:Hs.
  1: { split_and!.
       - destruct (body !! "path") as [[]|]; simpl in *; congruence.
       - destruct (body !! "event") as [[]|]; simpl in *; congruence.
       - destruct (body !! "source") as [[]|]; simpl in *; congruence. }
  all: split; [simpl; discriminate|].
  all: rewrite <- required_str_None, <- (defaulted_str_None _ "view"), <- optional_str_None.
  all: rewrite Hp, He, Hs.
  all: rewrite !elem_of_app, !field_error_elem.
  all: split_and!; [split; [intros [[_ ?]|[[? _]|[? _]]]; done|intros ?; try done; eauto]
                   |split; [intros [[? _]|[[_ ?]|[? _]]]; done|intros ?; try done; eauto]
                   |split; [intros [[? _]|[[? _]|[_ ?]]]; done|intros ?; try done; eauto]
                   |].
  all: intros f; rewrite !elem_of_app, !field_error_elem; intros [[? _]|[[? _]|[? _]]]; eauto.
Qed.

(** X12. A field of the body that [TrackEventIn] does not declare is
    ignored: adding it, with any value, changes neither the outcome of
    the validation nor the answer to the request. *)
Theorem TrackEventIn_ignores_undeclared (body : gmap string jval) (k : string) (v : jval)
    (request : Request) (w : world)
    (Hpath : k ≠ "path") (Hevent : k ≠ "event") (Hsource : k ≠ "source") :
  TrackEventIn_validate (<[k := v]> body) = TrackEventIn_validate body
  ∧ serve (PostTrack (<[k := v]> body) request) w = serve (PostTrack body request) w.
Proof.
  assert (Hsame : TrackEventIn_validate (<[k := v]> body) = TrackEventIn_validate body).
  { unfold TrackEventIn_validate. by rewrite !lookup_insert_ne by done. }
  split; [exact Hsame|]. unfold serve. by rewrite Hsame.
Qed.

Lemma TrackEventIn_ignores_undeclared_witness :
  let body := Sample.home in
  let k := "referrer" in
  let v := JStr "https://example.org" in
  let request := Sample.browser in
  let w := Sample.world0 in
  k ≠ "path" ∧ k ≠ "event" ∧ k ≠ "source"
  ∧ TrackEventIn_validate (<[k := v]> body) = TrackEventIn_validate body
  ∧ serve (PostTrack (<[k := v]> body) request) w = serve (PostTrack body request) w.
Proof.
  intros body k v request w.
  assert (Hpath : k ≠ "path") by discriminate.
  assert (Hevent : k ≠ "event") by discriminate.
  assert (Hsource : k ≠ "source") by discriminate.
  split; [exact Hpath|]. split; [exact Hevent|]. split; [exact Hsource|].
  exact (TrackEventIn_ignores_undeclared body k v request w Hpath Hevent Hsource).
Defined.

(** ** Order of the failures of an ingestion *)

(** X13. The event is built before the store is touched: when building
    it fails, the answer is 500 with the message of that failure, the
    store is as it was, and a missing handle or a failing insert does
    not show. *)
Theorem track_event_schema_first (payload : TrackEventIn.t) (request : Request)
    (w : world) (e : string)
    (Hschema : schema_rejects w (event_of payload request) = Some e) :
  track_event payload request w = (HTTPException 500 e, w)
  ∧ ∀ d : database,
      track_event payload request (with_db w d) = (HTTPException 500 e, with_db w d).
Proof.
  split.
  - rewrite track_event_spec. by rewrite Hschema.
  - intros d. rewrite track_event_spec. cbn [schema_rejects with_db].
    by rewrite Hschema.
Qed.

Lemma track_event_schema_first_witness :
  let payload := TrackEventIn.Build "" "view" None in
  let request := Sample.browser in
  let w := Faulty.no_store_world in
  let e := "path must not be empty" in
  schema_rejects w (event_of payload request) = Some e
  ∧ track_event payload request w = (HTTPException 500 e, w)
  ∧ ∀ d : database,
      track_event payload request (with_db w d) = (HTTPException 500 e, with_db w d).
Proof.
  intros payload request w e. split; [reflexivity|].
  apply (track_event_schema_first payload request w e). reflexivity.
Defined.
